(** * camply: push notifications via Pushbullet

    A shallow embedding of [camply/notifications/pushbullet.py]
    ([PushbulletNotifications.__init__], [send_message], [send_campsites])
    together with the pieces of Python, [datetime] and [requests] it calls.
    [send_message] and [send_campsites] are the bodies of the two
    methods; [call_send_message] and [call_send_campsites] are their
    calls, with the binding of the keyword arguments.

    Effects are explicit: a computation is a function from the program
    state (the class-level configuration, the dictionaries allocated so
    far, the HTTP requests issued so far and the log) to an outcome (a
    value or a raised exception) and a new state. *)

From Stdlib Require Import String Ascii ZArith List Bool Lia DecimalString.
From stdpp Require Import base option list gmap strings fin_maps.

Local Open Scope string_scope.
Local Open Scope Z_scope.

(** ** Python values *)

(** [datetime.datetime] (naive: no [tzinfo]). *)
Record datetime := {
  year : nat;
  month : nat;
  day : nat;
  hour : nat;
  minute : nat;
  second : nat;
  microsecond : nat
}.

(** The values a field of a record, a keyword argument or a JSON payload
    may hold. [VObject s t] is any other object, known by the text [s]
    that [format(obj, "")] produces for it and, when the object has a
    [strftime] method (a [datetime.date], say), by the text [t] that
    [obj.strftime("%Y-%m-%d")] returns. *)
Inductive value :=
| VNone
| VBool (b : bool)
| VInt (z : Z)
| VStr (s : string)
| VDatetime (d : datetime)
| VObject (str_ : string) (strftime_ : option string).

(** A [dict] with string keys; [==] on dicts ignores insertion order. *)
Abbreviation pydict := (gmap string value).

(** ** Exceptions and outcomes *)

Record response := {
  status_code : Z;
  reason : string;
  response_url : string;
  text : string
}.

Inductive exn :=
| EnvironmentError (msg : string)
| ConnectionError (msg : string) (cause : exn)   (* raise ... from cause *)
| HTTPError (msg : string) (r : response)
| RequestException (msg : string)                (* transport-level failure *)
| TypeError (msg : string)
| AttributeError (attr : string).

Inductive outcome (A : Type) :=
| Ok (a : A)
| Raise (e : exn).
Arguments Ok {A} a.
Arguments Raise {A} e.

#[global] Instance outcome_ret : MRet outcome := fun A a => Ok a.
#[global] Instance outcome_bind : MBind outcome := fun A B f m =>
  match m with
  | Ok a => f a
  | Raise e => Raise e
  end.

(** ** Strings: the [str] methods and formatting the source uses *)

Module Str.

Definition is_lower (c : ascii) : bool :=
  let n := nat_of_ascii c in (97 <=? n)%nat && (n <=? 122)%nat.

Definition is_upper (c : ascii) : bool :=
  let n := nat_of_ascii c in (65 <=? n)%nat && (n <=? 90)%nat.

Definition to_upper (c : ascii) : ascii :=
  if is_lower c then ascii_of_nat (nat_of_ascii c - 32) else c.

Definition to_lower (c : ascii) : ascii :=
  if is_upper c then ascii_of_nat (nat_of_ascii c + 32) else c.

(** [s.replace(old, new)] for one-character [old] and [new]. *)
Fixpoint replace (old new : ascii) (s : string) : string :=
  match s with
  | EmptyString => EmptyString
  | String c s' =>
      String (if Ascii.eqb c old then new else c) (replace old new s')
  end.

(** [s.title()]: a cased character is upper-cased when the character
    before it is not cased and lower-cased when it is (CPython's
    [do_title]). The model is that of ASCII text, which the names of a
    record's fields are: a string is its bytes, and a byte that is not
    an ASCII letter is uncased. *)
Fixpoint title_from (previous_is_cased : bool) (s : string) : string :=
  match s with
  | EmptyString => EmptyString
  | String c s' =>
      if is_lower c then
        String (if previous_is_cased then c else to_upper c) (title_from true s')
      else if is_upper c then
        String (if previous_is_cased then to_lower c else c) (title_from true s')
      else String c (title_from false s')
  end.

Definition title (s : string) : string := title_from false s.

(** [sep.join(parts)]. *)
Definition join (sep : string) (parts : list string) : string :=
  String.concat sep parts.

(** Decimal text of a natural number, left-padded with zeros to [width]. *)
Definition of_nat (n : nat) : string := NilZero.string_of_uint (Nat.to_uint n).

Fixpoint zeros (n : nat) : string :=
  match n with
  | O => EmptyString
  | S n' => String "0" (zeros n')
  end.

Definition zfill (width : nat) (s : string) : string :=
  zeros (width - String.length s) ++ s.

Definition of_Z (z : Z) : string := NilZero.string_of_int (Z.to_int z).

(** [s.count(c)] for a one-character [c]. *)
Fixpoint count (c : ascii) (s : string) : nat :=
  match s with
  | EmptyString => O
  | String c' s' => ((if Ascii.eqb c' c then 1 else 0) + count c s')%nat
  end.

End Str.

Definition newline : string := String "010" EmptyString.

(** [d.strftime("%Y-%m-%d")]. *)
Definition strftime_Ymd (d : datetime) : string :=
  Str.zfill 4 (Str.of_nat (year d)) ++ "-" ++
  Str.zfill 2 (Str.of_nat (month d)) ++ "-" ++
  Str.zfill 2 (Str.of_nat (day d)).

(** [str(d)], that is [d.isoformat(sep=" ")]. *)
Definition datetime_str (d : datetime) : string :=
  strftime_Ymd d ++ " " ++
  Str.zfill 2 (Str.of_nat (hour d)) ++ ":" ++
  Str.zfill 2 (Str.of_nat (minute d)) ++ ":" ++
  Str.zfill 2 (Str.of_nat (second d)) ++
  (if Nat.eqb (microsecond d) 0 then ""
   else "." ++ Str.zfill 6 (Str.of_nat (microsecond d))).

(** What [f"{v}"] puts into the string. *)
Definition format (v : value) : string :=
  match v with
  | VNone => "None"
  | VBool true => "True"
  | VBool false => "False"
  | VInt z => Str.of_Z z
  | VStr s => s
  | VDatetime d => datetime_str d
  | VObject s _ => s
  end.

(** [v.strftime("%Y-%m-%d")]: the call is duck-typed; [None], a
    [bool], an [int] and a [str] have no such attribute. *)
Definition strftime (v : value) : outcome string :=
  match v with
  | VDatetime d => Ok (strftime_Ymd d)
  | VObject _ (Some t) => Ok t
  | _ => Raise (AttributeError "strftime")
  end.

(** ** Program state *)

(** One call of [requests.post(url=..., headers=..., json=...)]. *)
Record request := {
  url : string;
  headers : pydict;
  json : pydict
}.

(** What a call of [requests.post] comes back with: an HTTP response of
    the service, or an exception raised by [requests.post] itself (no
    connection, a timeout, a payload that [json] cannot encode, ...). *)
Inductive post_outcome :=
| Responded (r : response)
| PostRaised (e : exn).

Inductive log_record :=
| LogDebug (payload : pydict)
| LogWarning (msg : string)
| LogError (msg : string).

(** [camply.config.PushbulletConfig] is not among the sources: its three
    class attributes are parameters of the state. [API_HEADERS] holds the
    contents of the one dict object the attribute refers to. *)
Record PushbulletConfig := {
  PUSHBULLET_API_ENDPOINT : string;
  API_TOKEN : option string;
  API_HEADERS : pydict
}.

(** References to dict objects: the dict that
    [PushbulletConfig.API_HEADERS] names, shared by every call, and the
    dicts created while the program runs. *)
Inductive ref :=
| ConfigHeaders
| Local (n : nat).

Record state := {
  config : PushbulletConfig;
  locals : list pydict;
  sent : list request;
  logs : list log_record
}.

Definition M (A : Type) : Type := state -> outcome A * state.

#[global] Instance M_ret : MRet M := fun A a st => (Ok a, st).
#[global] Instance M_bind : MBind M := fun A B f m st =>
  match m st with
  | (Ok a, st') => f a st'
  | (Raise e, st') => (Raise e, st')
  end.

Definition raise {A} (e : exn) : M A := fun st => (Raise e, st).

Definition lift {A} (o : outcome A) : M A := fun st => (o, st).

Definition gets {A} (f : state -> A) : M A := fun st => (Ok (f st), st).

(** [try: body  except <handler matches> as e: ...]: an exception the
    handler does not match propagates. *)
Definition try_except {A} (body : M A) (handler : exn -> option (M A)) : M A :=
  fun st =>
    match body st with
    | (Ok a, st') => (Ok a, st')
    | (Raise e, st') =>
        match handler e with
        | Some h => h st'
        | None => (Raise e, st')
        end
    end.

(** *** Dict objects *)

Definition deref (st : state) (r : ref) : pydict :=
  match r with
  | ConfigHeaders => API_HEADERS (config st)
  | Local n => default ∅ (locals st !! n)
  end.

Definition set_headers (c : PushbulletConfig) (d : pydict) : PushbulletConfig :=
  {| PUSHBULLET_API_ENDPOINT := PUSHBULLET_API_ENDPOINT c;
     API_TOKEN := API_TOKEN c;
     API_HEADERS := d |}.

(** [d.copy()]: a new object with the contents of [d]. *)
Definition dict_copy (r : ref) : M ref := fun st =>
  (Ok (Local (length (locals st))),
   {| config := config st;
      locals := locals st ++ [deref st r];
      sent := sent st;
      logs := logs st |}).

(** [d.update(other)]: writes the entries of [other] into the object
    [d] itself; every reference to that object sees them. *)
Definition dict_update (r : ref) (other : pydict) : M unit := fun st =>
  (Ok tt,
   match r with
   | ConfigHeaders =>
       {| config := set_headers (config st) (other ∪ API_HEADERS (config st));
          locals := locals st;
          sent := sent st;
          logs := logs st |}
   | Local n =>
       {| config := config st;
          locals := alter (fun d => other ∪ d) n (locals st);
          sent := sent st;
          logs := logs st |}
   end).

(** [kwargs.pop(key, default)]: the value and the dict without the key. *)
Definition dict_pop (d : pydict) (key : string) (dflt : value) : value * pydict :=
  (default dflt (d !! key), delete key d).

(** [dict(k1=v1, ..., **kwargs)]: a keyword given both by name and in
    [kwargs] is a [TypeError]. *)
Definition dict_kw (named : list (string * value)) (kwargs : pydict) : outcome pydict :=
  match List.find (fun kv => bool_decide (is_Some (kwargs !! kv.1))) named with
  | Some kv =>
      Raise (TypeError ("dict() got multiple values for keyword argument '" ++ kv.1 ++ "'"))
  | None => Ok (kwargs ∪ list_to_map named)
  end.

(** *** Logging *)

Definition log (r : log_record) : M unit := fun st =>
  (Ok tt,
   {| config := config st;
      locals := locals st;
      sent := sent st;
      logs := logs st ++ [r] |}).

(** ** The [requests] library *)

(** [response.raise_for_status()]: the message is empty unless the
    status is 4xx or 5xx, and the error is raised when it is not empty. *)
Definition http_error_msg (r : response) : string :=
  if (400 <=? status_code r) && (status_code r <? 500) then
    Str.of_Z (status_code r) ++ " Client Error: " ++ reason r ++
    " for url: " ++ response_url r
  else if (500 <=? status_code r) && (status_code r <? 600) then
    Str.of_Z (status_code r) ++ " Server Error: " ++ reason r ++
    " for url: " ++ response_url r
  else "".

Definition raise_for_status (r : response) : outcome unit :=
  if String.eqb (http_error_msg r) "" then Ok tt
  else Raise (HTTPError (http_error_msg r) r).

(** ** Records of available campsites *)

(** Modelled from the spec: [camply.config.CampsiteContainerFields] is
    not among the sources; the spec names the three fields
    [booking_url], [booking_date] and [booking_end_date]. *)
Module CampsiteContainerFields.
Definition BOOKING_URL : string := "booking_url".
Definition BOOKING_DATE : string := "booking_date".
Definition BOOKING_END_DATE : string := "booking_end_date".
End CampsiteContainerFields.

(** Modelled from the spec: [camply.containers.AvailableCampsite] is not
    among the sources; the spec says a record is convertible to an
    ordered mapping of field name to value ([campsite.dict()]), and that
    it exposes its fields as attributes. *)
Record AvailableCampsite := {
  dict : list (string * value)
}.

(** [campsite.<name>]. *)
Definition getattr (campsite : AvailableCampsite) (name : string) : outcome value :=
  match List.find (fun kv => String.eqb kv.1 name) (dict campsite) with
  | Some kv => Ok kv.2
  | None => Raise (AttributeError name)
  end.

(** ** [PushbulletNotifications] *)

Definition warning_message : string :=
  "Pushbullet is not configured properly. To send Pushbullet messages " ++
  "make sure to run `camply configure` or set the " ++
  "proper environment variable: `PUSHBULLET_API_TOKEN`.".

Definition delivery_warning : string :=
  "Notifications weren't able to be sent to Pushbullet. " ++
  "Your configuration might be incorrect.".

(** [any(xs)]. *)
Definition any (xs : list bool) : bool := existsb (fun b => b) xs.

(** [x is None] and [x == ""] on the configured token. *)
Definition is_None (token : option string) : bool :=
  match token with
  | None => true
  | Some _ => false
  end.

Definition eq_empty_str (token : option string) : bool :=
  match token with
  | None => false
  | Some s => String.eqb s ""
  end.

(** [PushbulletNotifications.__init__] (lines 24-32). *)
Definition __init__ : M unit :=
  token ← gets (fun st => API_TOKEN (config st));
  if any [is_None token; eq_empty_str token] then
    log (LogError warning_message);;
    raise (EnvironmentError warning_message)
  else mret tt.

(** The token as the value stored under ["Access-Token"]. *)
Definition token_value (token : option string) : value :=
  match token with
  | None => VNone
  | Some s => VStr s
  end.

(** The loop over [campsite.dict().items()] (lines 87-96): the branch on
    the key, then the formatted entry appended to [fields]. *)
Definition rename_or_reformat (key : string) (v : value) : outcome (string * value) :=
  if String.eqb key CampsiteContainerFields.BOOKING_URL then
    Ok ("booking_link", v)
  else if existsb (String.eqb key)
            [CampsiteContainerFields.BOOKING_DATE;
             CampsiteContainerFields.BOOKING_END_DATE] then
    s ← strftime v; Ok (key, VStr s)
  else Ok (key, v).

Fixpoint format_items (items : list (string * value)) (fields : list string)
  : outcome (list string) :=
  match items with
  | [] => Ok fields
  | (key, v) :: rest =>
      kv ← rename_or_reformat key v;
      let formatted_key := Str.title (Str.replace "_" " " kv.1) in
      format_items rest (fields ++ [formatted_key ++ ": " ++ format kv.2])
  end.

(** Lines 86-97: [fields = list()], the loop, and the join. *)
Definition composed_message (campsite : AvailableCampsite) : outcome string :=
  fields ← format_items (dict campsite) [];
  Ok (Str.join newline fields).

(** Lines 98-101. *)
Definition message_title (campsite : AvailableCampsite) : outcome string :=
  recreation_area ← getattr campsite "recreation_area";
  facility_name ← getattr campsite "facility_name";
  booking_date ← getattr campsite "booking_date";
  date ← strftime booking_date;
  Ok (format recreation_area ++ " | " ++ format facility_name ++ " | " ++ date).

Section Service.

(** The remote service, the network and the [requests] library: what a
    call of [requests.post] comes back with, given the calls made before
    and the call itself. *)
Variable service : list request -> request -> post_outcome.

(** [requests.post(url=..., headers=..., json=...)]. *)
Definition requests_post (req : request) : M response := fun st =>
  let st' := {| config := config st;
                locals := locals st;
                sent := sent st ++ [req];
                logs := logs st |} in
  match service (sent st) req with
  | Responded r => (Ok r, st')
  | PostRaised e => (Raise e, st')
  end.

(** The body of [PushbulletNotifications.send_message] (lines 53-74),
    for the message and the dict that Python binds to the parameters
    [message] and [**kwargs] of line 41; the call itself, with its
    binding of the keywords, is [call_send_message] below. *)
Definition send_message (message : string) (kwargs : pydict) : M response :=
  pushbullet_headers ← dict_copy ConfigHeaders;
  token ← gets (fun st => API_TOKEN (config st));
  dict_update pushbullet_headers {[ "Access-Token" := token_value token ]};;
  let '(message_type, kwargs) := dict_pop kwargs "type" (VStr "note") in
  let '(message_title, kwargs) := dict_pop kwargs "title" (VStr "Camply Notification") in
  message_json ← lift (dict_kw [("type", message_type);
                                ("title", message_title);
                                ("body", VStr message)] kwargs);
  log (LogDebug message_json);;
  endpoint ← gets (fun st => PUSHBULLET_API_ENDPOINT (config st));
  header_items ← gets (fun st => deref st pushbullet_headers);
  response ← requests_post {| url := endpoint;
                              headers := header_items;
                              json := message_json |};
  try_except (lift (raise_for_status response))
    (fun e => match e with
              | HTTPError _ _ as he =>
                  Some (log (LogWarning delivery_warning);;
                        raise (ConnectionError (text response) he))
              | _ => None
              end);;
  mret response.

(** The loop of [send_campsites] (lines 85-104). *)
Fixpoint for_campsites (campsites : list AvailableCampsite) : M unit :=
  match campsites with
  | [] => mret tt
  | campsite :: rest =>
      composed ← lift (composed_message campsite);
      title ← lift (message_title campsite);
      send_message composed {[ "title" := VStr title; "type" := VStr "note" ]};;
      for_campsites rest
  end.

(** The body of [PushbulletNotifications.send_campsites] (lines
    85-104), for the batch and the dict that Python binds to the
    parameters [campsites] and [**kwargs] of line 77: [kwargs] is never
    read. The call itself is [call_send_campsites] below. *)
Definition send_campsites (campsites : list AvailableCampsite) (kwargs : pydict) : M unit :=
  for_campsites campsites.

(** *** Calls

    A call [f(x, **keywords)] of [def f(parameter, **kwargs)] binds [x]
    to the parameter and the keywords to [kwargs]; a keyword with the
    name of the parameter is a [TypeError], raised before the body of
    [f] runs (its text is that of CPython 3.10 and later, which names
    the function by its qualified name). *)
Definition bind_keywords (qualname parameter : string) (keywords : pydict)
  : outcome pydict :=
  if bool_decide (is_Some (keywords !! parameter)) then
    Raise (TypeError (qualname ++ "() got multiple values for argument '" ++
                      parameter ++ "'"))
  else Ok keywords.

(** [PushbulletNotifications.send_message(message, **options)] (line 41
    and the body). *)
Definition call_send_message (message : string) (options : pydict) : M response :=
  kwargs ← lift (bind_keywords "PushbulletNotifications.send_message" "message" options);
  send_message message kwargs.

(** [PushbulletNotifications.send_campsites(campsites, **options)] (line
    77 and the body). *)
Definition call_send_campsites (campsites : list AvailableCampsite)
    (options : pydict) : M unit :=
  kwargs ← lift (bind_keywords "PushbulletNotifications.send_campsites" "campsites" options);
  send_campsites campsites kwargs.

End Service.

(** ** The specification's own words

    The definitions of this module follow the wording of the
    specification, not the code; the theorems below compare the two. *)

Module Spec.

Definition is_date_key (key : string) : bool :=
  String.eqb key "booking_date" || String.eqb key "booking_end_date".

(** The label of a field: [booking_url] becomes "Booking Link", every
    other name has its underscores replaced by spaces and is title-cased. *)
Definition label (key : string) : string :=
  if String.eqb key "booking_url" then "Booking Link"
  else Str.title (Str.replace "_" " " key).

(** The text of a field's value: the two booking dates as YYYY-MM-DD
    (as their own [strftime] gives it, for a date that is no
    [datetime]), every other value as Python formats it. *)
Definition value_text (key : string) (v : value) : string :=
  match v with
  | VDatetime d => if is_date_key key then strftime_Ymd d else format v
  | VObject _ (Some t) => if is_date_key key then t else format v
  | _ => format v
  end.

Definition line (kv : string * value) : string :=
  label kv.1 ++ ": " ++ value_text kv.1 kv.2.

(** The number of lines of a text: one more than its newlines. *)
Definition line_count (s : string) : nat := S (Str.count "010" s).

(** One line per field, in the record's order. *)
Definition body (campsite : AvailableCampsite) : string :=
  Str.join newline (List.map line (dict campsite)).

Definition field (campsite : AvailableCampsite) (name : string) : value :=
  match List.find (fun kv => String.eqb kv.1 name) (dict campsite) with
  | Some kv => kv.2
  | None => VNone
  end.

(** "<recreation_area> | <facility_name> | <YYYY-MM-DD>". *)
Definition title (campsite : AvailableCampsite) : string :=
  format (field campsite "recreation_area") ++ " | " ++
  format (field campsite "facility_name") ++ " | " ++
  value_text "booking_date" (field campsite "booking_date").

(** The base headers plus the access token. *)
Definition access_headers (cfg : PushbulletConfig) : pydict :=
  <[ "Access-Token" := token_value (API_TOKEN cfg) ]> (API_HEADERS cfg).

(** The JSON body of a raw message: [{type, title, body: text,
    ...extra options}], with the defaults for a missing type or title. *)
Definition payload (message : string) (kwargs : pydict) : pydict :=
  <[ "type" := default (VStr "note") (kwargs !! "type") ]>
    (<[ "title" := default (VStr "Camply Notification") (kwargs !! "title") ]>
       (<[ "body" := VStr message ]> kwargs)).

(** The POST of a raw message. *)
Definition message_request (cfg : PushbulletConfig) (message : string)
    (kwargs : pydict) : request :=
  {| url := PUSHBULLET_API_ENDPOINT cfg;
     headers := access_headers cfg;
     json := payload message kwargs |}.

(** The POST that notifies of one record. *)
Definition notification (cfg : PushbulletConfig) (campsite : AvailableCampsite) : request :=
  {| url := PUSHBULLET_API_ENDPOINT cfg;
     headers := access_headers cfg;
     json := {[ "type" := VStr "note";
                "title" := VStr (title campsite);
                "body" := VStr (body campsite) ]} |}.

(** The inbound data contract: the record has the three fields the title
    is made of, and its booking dates are datetimes. *)
Definition is_datetime (v : value) : bool :=
  match v with
  | VDatetime _ => true
  | _ => false
  end.

Definition has_field (campsite : AvailableCampsite) (name : string) : bool :=
  existsb (fun kv => String.eqb kv.1 name) (dict campsite).

Definition well_formed (campsite : AvailableCampsite) : bool :=
  forallb (fun kv => negb (is_date_key kv.1) || is_datetime kv.2) (dict campsite)
  && has_field campsite "recreation_area"
  && has_field campsite "facility_name"
  && has_field campsite "booking_date".

(** What the code needs of a record to format it: the three fields of
    the title, and booking dates that have a [strftime] method. *)
Definition has_strftime (v : value) : bool :=
  match v with
  | VDatetime _ => true
  | VObject _ (Some _) => true
  | _ => false
  end.

Definition formattable (campsite : AvailableCampsite) : bool :=
  forallb (fun kv => negb (is_date_key kv.1) || has_strftime kv.2) (dict campsite)
  && has_field campsite "recreation_area"
  && has_field campsite "facility_name"
  && has_field campsite "booking_date".

(** An HTTP success status is a 2xx status. *)
Definition success_status (r : response) : bool :=
  (200 <=? status_code r) && (status_code r <? 300).

(** The statuses on which [raise_for_status] raises: 4xx and 5xx. *)
Definition error_status (r : response) : bool :=
  (400 <=? status_code r) && (status_code r <? 600).

Definition delivered (o : post_outcome) : bool :=
  match o with
  | Responded r => negb (error_status r)
  | PostRaised _ => false
  end.

(** Every request of [reqs], issued in turn after [history], is
    delivered. *)
Fixpoint all_delivered (service : list request -> request -> post_outcome)
    (history reqs : list request) : bool :=
  match reqs with
  | [] => true
  | req :: rest =>
      delivered (service history req) && all_delivered service (history ++ [req]) rest
  end.

(** The options map that holds a [type] and a [title], each when given. *)
Definition options (type_ title_ : option value) : pydict :=
  let with_title :=
    match title_ with
    | Some v => <[ "title" := v ]> (∅ : pydict)
    | None => ∅
    end in
  match type_ with
  | Some v => <[ "type" := v ]> with_title
  | None => with_title
  end.

(** [needle in haystack]. *)
Fixpoint contains (needle haystack : string) : bool :=
  String.prefix needle haystack ||
  match haystack with
  | EmptyString => false
  | String _ rest => contains needle rest
  end.

(** A name made of lower-case letters and underscores only. *)
Fixpoint snake_case (key : string) : bool :=
  match key with
  | EmptyString => true
  | String c rest => (Str.is_lower c || Ascii.eqb c "_") && snake_case rest
  end.

(** Each word capitalized: a letter is upper-cased exactly when it
    starts the text or follows a space. *)
Fixpoint capitalize_words (at_start : bool) (s : string) : string :=
  match s with
  | EmptyString => EmptyString
  | String c rest =>
      String (if at_start then Str.to_upper c else c)
             (capitalize_words (Ascii.eqb c " ") rest)
  end.

End Spec.

(** ** States a call of [send_message] goes through *)

(** The state once the request [req] has gone out: the headers were
    copied into a new dict, the payload was logged, the request was
    issued. *)
Definition posted (st : state) (req : request) : state :=
  {| config := config st;
     locals := locals st ++ [Spec.access_headers (config st)];
     sent := sent st ++ [req];
     logs := logs st ++ [LogDebug (json req)] |}.

(** The state once the failed delivery has been logged. *)
Definition warned (st : state) : state :=
  {| config := config st;
     locals := locals st;
     sent := sent st;
     logs := logs st ++ [LogWarning delivery_warning] |}.

(** ** Sample data: the record of the specification's example *)

Module Sample.

Definition cfg : PushbulletConfig :=
  {| PUSHBULLET_API_ENDPOINT := "https://api.pushbullet.com/v2/pushes";
     API_TOKEN := Some "o.token";
     API_HEADERS := {[ "Content-Type" := VStr "application/json" ]} |}.

Definition st0 : state :=
  {| config := cfg; locals := []; sent := []; logs := [] |}.

Definition blank_token_state : state :=
  {| config := {| PUSHBULLET_API_ENDPOINT := PUSHBULLET_API_ENDPOINT cfg;
                  API_TOKEN := Some " ";
                  API_HEADERS := API_HEADERS cfg |};
     locals := []; sent := []; logs := [] |}.

Definition respond (code : Z) (phrase body : string) : response :=
  {| status_code := code;
     reason := phrase;
     response_url := PUSHBULLET_API_ENDPOINT cfg;
     text := body |}.

Definition ok_200 : response := respond 200 "OK" "{}".
Definition not_modified_304 : response := respond 304 "Not Modified" "".
Definition unauthorized_401 : response := respond 401 "Unauthorized" "bad token".
Definition server_error_500 : response := respond 500 "Internal Server Error" "oops".

(** Services that answer every request alike. *)
Definition always (r : response) : list request -> request -> post_outcome :=
  fun _ _ => Responded r.

(** A service that accepts the first [n] requests and rejects the rest. *)
Definition accepts_first (n : nat) : list request -> request -> post_outcome :=
  fun history _ =>
    if (length history <? n)%nat then Responded ok_200
    else Responded unauthorized_401.

Definition night (y m d : nat) : datetime :=
  {| year := y; month := m; day := d;
     hour := 0; minute := 0; second := 0; microsecond := 0 |}.

Definition upper_pines : AvailableCampsite :=
  {| dict := [("facility_name", VStr "Upper Pines");
              ("recreation_area", VStr "Yosemite");
              ("booking_date", VDatetime (night 2023 6 1));
              ("booking_end_date", VDatetime (night 2023 6 2));
              ("booking_url", VStr "http://x")] |}.

Definition lower_pines : AvailableCampsite :=
  {| dict := [("campsite_id", VInt 42);
              ("booking_date", VDatetime (night 2023 7 4));
              ("booking_end_date", VDatetime (night 2023 7 5));
              ("recreation_area", VStr "Yosemite");
              ("facility_name", VStr "Lower Pines");
              ("booking_url", VStr "http://y")] |}.

End Sample.

(** ** Further definitions *)

(** [PushbulletNotifications.__repr__] (lines 34-38). *)
Definition __repr__ : string := "<PushbulletNotifications>".

(** The exception, if any, that formatting a record raises in the loop
    of [send_campsites]: that of the body (lines 86-97), else that of
    the title (lines 98-101). *)
Definition formatting_error (campsite : AvailableCampsite) : option exn :=
  match composed_message campsite with
  | Raise e => Some e
  | Ok _ =>
      match message_title campsite with
      | Raise e => Some e
      | Ok _ => None
      end
  end.

Module Faulty.

(** A network that is down. *)
Definition offline : list request -> request -> post_outcome :=
  fun _ _ => PostRaised (RequestException "connection refused").

(** A record with no facility name. *)
Definition no_facility : AvailableCampsite :=
  {| dict := [("recreation_area", VStr "Yosemite");
              ("booking_date", VDatetime (Sample.night 2023 6 1));
              ("booking_url", VStr "http://x")] |}.

(** A record whose end date is a text. *)
Definition text_end_date : AvailableCampsite :=
  {| dict := [("recreation_area", VStr "Yosemite");
              ("facility_name", VStr "Upper Pines");
              ("booking_date", VDatetime (Sample.night 2023 6 1));
              ("booking_end_date", VStr "2023-06-02")] |}.

(** A record whose start date is a [datetime.date]: an object with a
    [strftime] method that is no [datetime]. *)
Definition plain_date : AvailableCampsite :=
  {| dict := [("recreation_area", VStr "Yosemite");
              ("facility_name", VStr "Upper Pines");
              ("booking_date", VObject "2023-06-01" (Some "2023-06-01"))] |}.

End Faulty.

(** * Properties *)

(** ** The monad *)

Lemma bind_run {A B} (m : M A) (f : A -> M B) (st : state) :
  (m ≫= f) st =
  match m st with
  | (Ok a, st') => f a st'
  | (Raise e, st') => (Raise e, st')
  end.
Proof. reflexivity. Qed.

Lemma bind_lift_ok {A B} (a : A) (f : A -> M B) (st : state) :
  (lift (Ok a) ≫= f) st = f a st.
Proof. reflexivity. Qed.

Lemma bind_lift_raise {A B} (e : exn) (f : A -> M B) (st : state) :
  (lift (Raise e) ≫= f) st = (Raise e, st).
Proof. reflexivity. Qed.

(** ** Strings *)

Lemma append_nonempty (a b : string) (c : ascii) :
  String.eqb (a ++ String c b) "" = false.
Proof. destruct a; reflexivity. Qed.

(** ** [raise_for_status] raises exactly on 4xx and 5xx *)

Lemma http_error_msg_empty (r : response) :
  String.eqb (http_error_msg r) "" = negb (Spec.error_status r).
Proof.
  unfold http_error_msg, Spec.error_status.
  destruct (400 <=? status_code r) eqn:H4, (status_code r <? 500) eqn:H5,
    (500 <=? status_code r) eqn:H6, (status_code r <? 600) eqn:H7;
    cbn [andb negb]; try apply append_nonempty; try reflexivity; lia.
Qed.

Lemma raise_for_status_cases (r : response) :
  raise_for_status r =
  if Spec.error_status r then Raise (HTTPError (http_error_msg r) r) else Ok tt.
Proof.
  unfold raise_for_status. rewrite http_error_msg_empty.
  destruct (Spec.error_status r); reflexivity.
Qed.

(** ** Dict operations *)

Lemma alter_last {A} (f : A -> A) (l : list A) (x : A) :
  alter f (length l) (l ++ [x])%list = (l ++ [f x])%list.
Proof. induction l as [|y l IH]; [reflexivity | cbn; by rewrite IH]. Qed.

Lemma lookup_last {A} (l : list A) (x : A) :
  (l ++ [x])%list !! length l = Some x.
Proof. induction l as [|y l IH]; [reflexivity | exact IH]. Qed.

(** After the two pops the only named keyword that can still be in
    [kwargs] is [body]. *)
Lemma dict_kw_after_pops (message : string) (kwargs : pydict) (ty tl : value) :
  dict_kw [("type", ty); ("title", tl); ("body", VStr message)]
          (delete "title" (delete "type" kwargs)) =
  match kwargs !! "body" with
  | Some _ =>
      Raise (TypeError "dict() got multiple values for keyword argument 'body'")
  | None =>
      Ok (delete "title" (delete "type" kwargs) ∪
            list_to_map [("type", ty); ("title", tl); ("body", VStr message)])
  end.
Proof.
  unfold dict_kw. cbn [List.find fst].
  rewrite bool_decide_eq_false_2.
  2: { rewrite lookup_delete_ne by done. rewrite lookup_delete_eq. by intros [? ?]. }
  rewrite bool_decide_eq_false_2.
  2: { rewrite lookup_delete_eq. by intros [? ?]. }
  rewrite !lookup_delete_ne by done.
  destruct (kwargs !! "body") as [v|] eqn:Hb.
  - rewrite bool_decide_eq_true_2 by eauto. reflexivity.
  - rewrite bool_decide_eq_false_2 by (by intros [? ?]). reflexivity.
Qed.

(** The dict the code builds is the payload of the specification. *)
Lemma merged_payload (message : string) (kwargs : pydict) :
  kwargs !! "body" = None ->
  delete "title" (delete "type" kwargs) ∪
    list_to_map [("type", default (VStr "note") (kwargs !! "type"));
                 ("title", default (VStr "Camply Notification")
                             (delete "type" kwargs !! "title"));
                 ("body", VStr message)]
  = Spec.payload message kwargs.
Proof.
  intros Hbody. unfold Spec.payload. apply map_eq. intros k.
  rewrite lookup_union. cbn [list_to_map foldr uncurry fst snd curry].
  rewrite (lookup_delete_ne kwargs "type" "title") by done.
  destruct (decide (k = "type")) as [->|Hty];
    [|destruct (decide (k = "title")) as [->|Htl];
      [|destruct (decide (k = "body")) as [->|Hb]]];
    simplify_map_eq; try reflexivity.
  by rewrite Hbody.
Qed.

(** ** [send_message], step by step *)

Section SendMessage.

Variable service : list request -> request -> post_outcome.

(** A keyword [body] collides with the named argument: the call stops
    with a [TypeError] after the headers were built and before anything
    is logged or sent. *)
Lemma send_message_body_collision (message : string) (kwargs : pydict) (st : state) :
  is_Some (kwargs !! "body") ->
  send_message service message kwargs st =
  (Raise (TypeError "dict() got multiple values for keyword argument 'body'"),
   {| config := config st;
      locals := locals st ++ [Spec.access_headers (config st)];
      sent := sent st;
      logs := logs st |}).
Proof.
  intros [v Hv]. unfold send_message, dict_pop.
  rewrite bind_run. unfold dict_copy at 1. cbn [deref].
  rewrite bind_run. unfold gets at 1. cbn [config].
  rewrite bind_run. unfold dict_update at 1. cbn [locals config sent logs].
  rewrite alter_last, <- insert_union_singleton_l.
  rewrite dict_kw_after_pops, Hv. reflexivity.
Qed.

(** Without that collision the call posts the request of the
    specification, and its outcome is decided by what comes back. *)
Lemma send_message_run (message : string) (kwargs : pydict) (st : state) :
  kwargs !! "body" = None ->
  let req := Spec.message_request (config st) message kwargs in
  send_message service message kwargs st =
  match service (sent st) req with
  | PostRaised e => (Raise e, posted st req)
  | Responded r =>
      if Spec.error_status r then
        (Raise (ConnectionError (text r) (HTTPError (http_error_msg r) r)),
         warned (posted st req))
      else (Ok r, posted st req)
  end.
Proof.
  intros Hbody req. unfold send_message, dict_pop.
  rewrite bind_run. unfold dict_copy at 1. cbn [deref].
  rewrite bind_run. unfold gets at 1. cbn [config].
  rewrite bind_run. unfold dict_update at 1. cbn [locals config sent logs].
  rewrite alter_last, <- insert_union_singleton_l.
  rewrite dict_kw_after_pops, Hbody, merged_payload by exact Hbody.
  rewrite bind_lift_ok.
  rewrite bind_run. unfold log at 1. cbn [locals config sent logs].
  rewrite bind_run. unfold gets at 1. cbn [config].
  rewrite bind_run. unfold gets at 1. cbn [deref locals].
  rewrite lookup_last. cbn [from_option]. unfold id.
  rewrite bind_run. unfold requests_post at 1. cbn [locals config sent logs].
  fold (Spec.access_headers (config st)).
  fold (Spec.message_request (config st) message kwargs). fold req.
  destruct (service (sent st) req) as [r|e]; [|reflexivity].
  rewrite bind_run. unfold try_except, lift.
  rewrite raise_for_status_cases.
  destruct (Spec.error_status r); reflexivity.
Qed.

(** An exception of [requests.post] itself is not handled: it reaches
    the caller as it is. *)
Lemma send_message_post_raised (message : string) (kwargs : pydict) (st : state)
    (e : exn) :
  kwargs !! "body" = None ->
  service (sent st) (Spec.message_request (config st) message kwargs) = PostRaised e ->
  fst (send_message service message kwargs st) = Raise e.
Proof.
  intros Hbody Hservice. rewrite send_message_run by exact Hbody. cbv zeta.
  by rewrite Hservice.
Qed.

End SendMessage.

(** ** Formatting one record *)

Lemma date_key_test (key : string) :
  existsb (String.eqb key)
    [CampsiteContainerFields.BOOKING_DATE; CampsiteContainerFields.BOOKING_END_DATE]
  = Spec.is_date_key key.
Proof. cbn [existsb]. unfold Spec.is_date_key. by rewrite orb_false_r. Qed.

Lemma url_is_no_date_key (key : string) :
  String.eqb key "booking_url" = true -> Spec.is_date_key key = false.
Proof. intros ->%String.eqb_eq. reflexivity. Qed.

(** Whenever the branch on the key goes through, the entry appended to
    [fields] is the line of the specification. *)
Lemma rename_or_reformat_line (key : string) (v : value) (kv : string * value) :
  rename_or_reformat key v = Ok kv ->
  Str.title (Str.replace "_" " " kv.1) ++ ": " ++ format kv.2 = Spec.line (key, v).
Proof.
  unfold rename_or_reformat, Spec.line, Spec.label, Spec.value_text.
  rewrite date_key_test. cbn [fst snd].
  change CampsiteContainerFields.BOOKING_URL with "booking_url".
  destruct (String.eqb key "booking_url") eqn:Hurl.
  - intros [= <-]. rewrite (url_is_no_date_key _ Hurl).
    destruct v as [| | | | |? []]; reflexivity.
  - destruct (Spec.is_date_key key).
    + destruct v as [| | | | |? []]; cbn; try discriminate; by intros [= <-].
    + intros [= <-]. destruct v as [| | | | |? []]; reflexivity.
Qed.

Lemma rename_or_reformat_ok (key : string) (v : value) :
  negb (Spec.is_date_key key) || Spec.has_strftime v = true ->
  exists kv, rename_or_reformat key v = Ok kv.
Proof.
  unfold rename_or_reformat. rewrite date_key_test.
  destruct (String.eqb key CampsiteContainerFields.BOOKING_URL); [eauto|].
  destruct (Spec.is_date_key key); [|eauto].
  destruct v as [| | | | |? []]; cbn; try discriminate; eauto.
Qed.

(** The loop appends to [fields] and drops nothing. *)
Lemma format_items_sound (items : list (string * value)) :
  forall fields out,
    format_items items fields = Ok out ->
    out = (fields ++ List.map Spec.line items)%list.
Proof.
  induction items as [|[key v] items IH]; intros fields out; cbn [format_items].
  - intros [= <-]. by rewrite app_nil_r.
  - destruct (rename_or_reformat key v) as [kv|e] eqn:Hkv; [|discriminate].
    cbn. intros Hout. apply IH in Hout. subst out.
    rewrite (rename_or_reformat_line _ _ _ Hkv).
    cbn [List.map]. by rewrite <- app_assoc.
Qed.

Lemma format_items_ok (items : list (string * value)) :
  forallb (fun kv => negb (Spec.is_date_key kv.1) || Spec.has_strftime kv.2) items = true ->
  forall fields, exists out, format_items items fields = Ok out.
Proof.
  induction items as [|[key v] items IH]; cbn [forallb format_items]; intros Hwf fields.
  - eauto.
  - apply andb_true_iff in Hwf as [Hkv Hrest].
    destruct (rename_or_reformat_ok key v Hkv) as [kv ->]. cbn.
    apply IH, Hrest.
Qed.

Lemma composed_message_sound (campsite : AvailableCampsite) (text : string) :
  composed_message campsite = Ok text -> text = Spec.body campsite.
Proof.
  unfold composed_message, Spec.body.
  destruct (format_items (dict campsite) []) as [out|e] eqn:Hout; [|discriminate].
  apply format_items_sound in Hout. subst out. by intros [= <-].
Qed.

Lemma getattr_field (campsite : AvailableCampsite) (name : string) (v : value) :
  getattr campsite name = Ok v -> Spec.field campsite name = v.
Proof.
  unfold getattr, Spec.field.
  destruct (List.find _ (dict campsite)); [by intros [= <-] | discriminate].
Qed.

Lemma getattr_ok (campsite : AvailableCampsite) (name : string) :
  Spec.has_field campsite name = true ->
  exists kv, In kv (dict campsite) /\ kv.1 = name /\ getattr campsite name = Ok kv.2.
Proof.
  unfold Spec.has_field, getattr. intros Hhas.
  destruct (List.find _ (dict campsite)) as [kv|] eqn:Hfind.
  - apply find_some in Hfind as [Hin Heq]. apply String.eqb_eq in Heq. eauto.
  - apply existsb_exists in Hhas as (kv & Hin & Heq).
    apply (find_none _ _ Hfind) in Hin. cbn in Hin. congruence.
Qed.

Lemma message_title_sound (campsite : AvailableCampsite) (text : string) :
  message_title campsite = Ok text -> text = Spec.title campsite.
Proof.
  unfold message_title, Spec.title.
  destruct (getattr campsite "recreation_area") as [ra|e] eqn:Hra; [|discriminate].
  destruct (getattr campsite "facility_name") as [fn|e] eqn:Hfn; [|discriminate].
  destruct (getattr campsite "booking_date") as [bd|e] eqn:Hbd; [|discriminate].
  cbn. rewrite (getattr_field _ _ _ Hra), (getattr_field _ _ _ Hfn),
    (getattr_field _ _ _ Hbd).
  destruct bd as [| | | | |? []]; cbn; try discriminate; by intros [= <-].
Qed.

(** A record that has what the code needs formats without an error. *)
Lemma formattable_formats (campsite : AvailableCampsite) :
  Spec.formattable campsite = true ->
  composed_message campsite = Ok (Spec.body campsite) /\
  message_title campsite = Ok (Spec.title campsite).
Proof.
  unfold Spec.formattable. rewrite !andb_true_iff.
  intros [[[Htyped Hra] Hfn] Hbd]. split.
  - destruct (format_items_ok _ Htyped []) as [out Hout].
    assert (Hc : composed_message campsite = Ok (Str.join newline out)).
    { unfold composed_message. by rewrite Hout. }
    rewrite Hc. f_equal. by apply composed_message_sound.
  - destruct (getattr_ok _ _ Hra) as (kra & _ & _ & Hgra).
    destruct (getattr_ok _ _ Hfn) as (kfn & _ & _ & Hgfn).
    destruct (getattr_ok _ _ Hbd) as (kbd & Hin & Hname & Hgbd).
    rewrite forallb_forall in Htyped. specialize (Htyped _ Hin).
    rewrite Hname in Htyped. cbn in Htyped.
    assert (Hdate : exists date, strftime kbd.2 = Ok date).
    { destruct (kbd.2) as [| | | |d|? []]; try discriminate; cbn; eauto. }
    destruct Hdate as [date Hdate].
    assert (Ht : message_title campsite =
                 Ok (format kra.2 ++ " | " ++ format kfn.2 ++ " | " ++ date)).
    { unfold message_title. rewrite Hgra, Hgfn, Hgbd. cbn. by rewrite Hdate. }
    rewrite Ht. f_equal. by apply message_title_sound.
Qed.

Lemma well_formed_formattable (campsite : AvailableCampsite) :
  Spec.well_formed campsite = true -> Spec.formattable campsite = true.
Proof.
  unfold Spec.well_formed, Spec.formattable. rewrite !andb_true_iff.
  intros [[[Htyped Hra] Hfn] Hbd]. repeat split; try assumption.
  rewrite forallb_forall in *. intros kv Hin. specialize (Htyped kv Hin).
  destruct (negb (Spec.is_date_key kv.1)); [reflexivity|].
  cbn in *. by destruct (kv.2).
Qed.

(** A record that meets the data contract formats without an error. *)
Lemma well_formed_formats (campsite : AvailableCampsite) :
  Spec.well_formed campsite = true ->
  composed_message campsite = Ok (Spec.body campsite) /\
  message_title campsite = Ok (Spec.title campsite).
Proof. intros Hwf. by apply formattable_formats, well_formed_formattable. Qed.

(** The keywords of the call in [send_campsites] make the notification
    of the specification. *)
Lemma notification_request (cfg : PushbulletConfig) (campsite : AvailableCampsite) :
  Spec.message_request cfg (Spec.body campsite)
    {[ "title" := VStr (Spec.title campsite); "type" := VStr "note" ]}
  = Spec.notification cfg campsite.
Proof.
  unfold Spec.message_request, Spec.notification, Spec.payload.
  reflexivity.
Qed.

Lemma notification_keywords_no_body (t : string) :
  ({[ "title" := VStr t; "type" := VStr "note" ]} : pydict) !! "body" = None.
Proof. by simplify_map_eq. Qed.

(** ** The loop of [send_campsites] *)

Section Loop.

Variable service : list request -> request -> post_outcome.

(** One turn of the loop: formatting may fail before anything is sent;
    otherwise the notification goes out and the loop goes on only when
    it was delivered. *)
Lemma for_campsites_cons (campsite : AvailableCampsite)
    (rest : list AvailableCampsite) (st : state) :
  for_campsites service (campsite :: rest) st =
  match composed_message campsite with
  | Raise e => (Raise e, st)
  | Ok _ =>
      match message_title campsite with
      | Raise e => (Raise e, st)
      | Ok _ =>
          let req := Spec.notification (config st) campsite in
          match service (sent st) req with
          | PostRaised e => (Raise e, posted st req)
          | Responded r =>
              if Spec.error_status r then
                (Raise (ConnectionError (text r) (HTTPError (http_error_msg r) r)),
                 warned (posted st req))
              else for_campsites service rest (posted st req)
          end
      end
  end.
Proof.
  cbn [for_campsites].
  destruct (composed_message campsite) as [body|e] eqn:Hbody; [|reflexivity].
  rewrite bind_lift_ok.
  destruct (message_title campsite) as [title|e] eqn:Htitle; [|reflexivity].
  rewrite bind_lift_ok.
  apply composed_message_sound in Hbody. apply message_title_sound in Htitle.
  subst body title.
  rewrite bind_run, send_message_run by apply notification_keywords_no_body.
  rewrite notification_request. cbv zeta.
  destruct (service (sent st) _) as [r|e]; [|reflexivity].
  destruct (Spec.error_status r); reflexivity.
Qed.

Lemma for_campsites_delivered (campsite : AvailableCampsite)
    (rest : list AvailableCampsite) (st : state) :
  Spec.well_formed campsite = true ->
  Spec.delivered (service (sent st) (Spec.notification (config st) campsite)) = true ->
  for_campsites service (campsite :: rest) st =
  for_campsites service rest (posted st (Spec.notification (config st) campsite)).
Proof.
  intros [Hbody Htitle]%well_formed_formats Hdelivered.
  rewrite for_campsites_cons, Hbody, Htitle. cbv zeta.
  destruct (service (sent st) _) as [r|e]; [|discriminate].
  cbn [Spec.delivered] in Hdelivered.
  apply negb_true_iff in Hdelivered. by rewrite Hdelivered.
Qed.

Lemma for_campsites_rejected (campsite : AvailableCampsite)
    (rest : list AvailableCampsite) (st : state) (r : response) :
  Spec.well_formed campsite = true ->
  service (sent st) (Spec.notification (config st) campsite) = Responded r ->
  Spec.error_status r = true ->
  for_campsites service (campsite :: rest) st =
  (Raise (ConnectionError (text r) (HTTPError (http_error_msg r) r)),
   warned (posted st (Spec.notification (config st) campsite))).
Proof.
  intros [Hbody Htitle]%well_formed_formats Hservice Herror.
  rewrite for_campsites_cons, Hbody, Htitle. cbv zeta.
  by rewrite Hservice, Herror.
Qed.

(** Whatever happens, the requests issued are the notifications of the
    first records of the batch, in order, and the configuration is the
    one the call started with. *)
Lemma for_campsites_prefix (campsites : list AvailableCampsite) :
  forall st,
    config (for_campsites service campsites st).2 = config st /\
    exists notified,
      notified `prefix_of` campsites /\
      sent (for_campsites service campsites st).2 =
      (sent st ++ List.map (Spec.notification (config st)) notified)%list.
Proof.
  induction campsites as [|campsite rest IH]; intros st.
  - split; [reflexivity|]. exists []. split; [done|]. cbn. by rewrite app_nil_r.
  - rewrite for_campsites_cons.
    assert (Hnone : exists notified,
               notified `prefix_of` campsite :: rest /\
               sent st = (sent st ++ List.map (Spec.notification (config st)) notified)%list).
    { exists []. split; [apply prefix_nil|]. cbn. by rewrite app_nil_r. }
    assert (Hone : forall st', sent st' = sent (posted st (Spec.notification (config st) campsite)) ->
               exists notified,
                 notified `prefix_of` campsite :: rest /\
                 sent st' = (sent st ++ List.map (Spec.notification (config st)) notified)%list).
    { intros st' ->. exists [campsite]. split; [|reflexivity].
      apply (prefix_cons campsite [] rest), prefix_nil. }
    destruct (composed_message campsite); [|by split].
    destruct (message_title campsite); [|by split].
    cbv zeta. destruct (service (sent st) _) as [r|e].
    + destruct (Spec.error_status r).
      * split; [reflexivity|]. by apply Hone.
      * destruct (IH (posted st (Spec.notification (config st) campsite)))
          as [Hcfg (notified & Hprefix & Hsent)].
        split; [exact Hcfg|]. exists (campsite :: notified).
        split; [by apply prefix_cons|].
        rewrite Hsent. cbn [posted sent config List.map].
        by rewrite <- app_assoc.
    + split; [reflexivity|]. by apply Hone.
Qed.

End Loop.

(** ** Labels *)

Lemma booking_link_label :
  Str.title (Str.replace "_" " " "booking_link") = "Booking Link" /\
  Spec.label "booking_url" = "Booking Link".
Proof. split; reflexivity. Qed.

Lemma booking_end_date_label :
  Spec.label "booking_end_date" = "Booking End Date".
Proof. reflexivity. Qed.

(** On a snake-case name (lower-case letters and underscores) Python's
    [title] after the replacement capitalizes each word and changes
    nothing else. *)
Lemma title_from_snake_case (key : string) :
  Spec.snake_case key = true ->
  forall previous_is_cased,
    Str.title_from previous_is_cased (Str.replace "_" " " key) =
    Spec.capitalize_words (negb previous_is_cased) (Str.replace "_" " " key).
Proof.
  induction key as [|c key IH]; intros Hsnake cased; [reflexivity|].
  cbn [Spec.snake_case] in Hsnake.
  apply andb_true_iff in Hsnake as [Hc Hkey].
  cbn [Str.replace Str.title_from Spec.capitalize_words].
  destruct (Ascii.eqb c "_") eqn:Hunderscore.
  - apply Ascii.eqb_eq in Hunderscore. subst c.
    change (Str.is_lower " ") with false. change (Str.is_upper " ") with false.
    change (Ascii.eqb " " " ") with true. cbv iota.
    rewrite (IH Hkey false). unfold Str.to_upper.
    change (Str.is_lower " ") with false. by destruct cased.
  - rewrite orb_false_r in Hc. rewrite Hc.
    assert (Hspace : Ascii.eqb c " " = false).
    { apply Ascii.eqb_neq. intros ->. discriminate Hc. }
    rewrite Hspace, (IH Hkey true). by destruct cased.
Qed.

Lemma label_snake_case (key : string) :
  Spec.snake_case key = true ->
  Str.title (Str.replace "_" " " key) =
  Spec.capitalize_words true (Str.replace "_" " " key).
Proof. intros Hsnake. exact (title_from_snake_case key Hsnake false). Qed.

(** ** Lines *)

Lemma count_app (c : ascii) (a b : string) :
  Str.count c (a ++ b) = (Str.count c a + Str.count c b)%nat.
Proof.
  induction a as [|c' a IH]; [reflexivity|].
  change (String c' a ++ b) with (String c' (a ++ b)).
  cbn [Str.count]. rewrite IH. lia.
Qed.

(** Joining texts that hold no newline gives as many lines as texts. *)
Lemma join_line_count (parts : list string) :
  parts <> [] ->
  Forall (fun part => Str.count "010" part = O) parts ->
  Spec.line_count (Str.join newline parts) = length parts.
Proof.
  unfold Spec.line_count, Str.join.
  induction parts as [|part parts IH]; [done|]. intros _ Hparts.
  apply Forall_cons in Hparts as [Hpart Hparts].
  destruct parts as [|next parts].
  - cbn. by rewrite Hpart.
  - change (String.concat newline (part :: next :: parts))
      with (part ++ newline ++ String.concat newline (next :: parts)).
    rewrite !count_app, Hpart. change (Str.count "010" newline) with 1%nat.
    cbn [length Nat.add]. f_equal. by apply IH.
Qed.

Lemma body_line_count (campsite : AvailableCampsite) :
  dict campsite <> [] ->
  Forall (fun kv => Str.count "010" (Spec.line kv) = O) (dict campsite) ->
  Spec.line_count (Spec.body campsite) = length (dict campsite).
Proof.
  intros Hfields Hlines. unfold Spec.body.
  rewrite join_line_count, length_map; [reflexivity| |].
  - by destruct (dict campsite).
  - by apply Forall_map.
Qed.

(** The Upper Pines record of the specification. *)
Lemma upper_pines_title :
  message_title Sample.upper_pines = Ok "Yosemite | Upper Pines | 2023-06-01".
Proof. reflexivity. Qed.

Lemma upper_pines_lines :
  forall l,
    In l ["Booking Link: http://x"; "Booking Date: 2023-06-01";
          "Booking End Date: 2023-06-02"] ->
    In l (List.map Spec.line (dict Sample.upper_pines)).
Proof. intros l Hl. cbn in *. intuition. Qed.

(** ** The claims about construction *)

Lemma init_run (st : state) :
  __init__ st =
  if is_None (API_TOKEN (config st)) || eq_empty_str (API_TOKEN (config st)) then
    (Raise (EnvironmentError warning_message),
     {| config := config st;
        locals := locals st;
        sent := sent st;
        logs := logs st ++ [LogError warning_message] |})
  else (Ok tt, st).
Proof.
  unfold __init__, any. rewrite bind_run. unfold gets at 1.
  cbn [existsb]. rewrite orb_false_r.
  destruct (is_None _ || eq_empty_str _); reflexivity.
Qed.

Lemma token_missing_test (token : option string) :
  is_None token || eq_empty_str token = true <->
  token = None \/ token = Some "".
Proof.
  destruct token as [s|]; cbn.
  - rewrite String.eqb_eq. split; [intros ->; by right | by intros [?|[= ->]]].
  - split; [by left | done].
Qed.

(** C3: construction raises the configuration error ([EnvironmentError])
    exactly when the token is [None] or the empty string and returns
    normally otherwise; the message names the setup command and the
    environment variable; no request is issued in either case. *)
Theorem init_fails_iff_token_missing (st : state) :
  (fst (__init__ st) = Raise (EnvironmentError warning_message) <->
   API_TOKEN (config st) = None \/ API_TOKEN (config st) = Some "") /\
  (fst (__init__ st) = Ok tt <->
   ~ (API_TOKEN (config st) = None \/ API_TOKEN (config st) = Some "")) /\
  Spec.contains "camply configure" warning_message = true /\
  Spec.contains "PUSHBULLET_API_TOKEN" warning_message = true /\
  sent (snd (__init__ st)) = sent st.
Proof.
  rewrite init_run, <- token_missing_test.
  destruct (is_None _ || eq_empty_str _); cbn [fst snd sent];
    repeat split; try reflexivity; try discriminate; try done.
Qed.

(** C10: a token that is neither [None] nor the empty string, a blank
    one included, passes the check: construction returns normally and
    leaves the state as it was. *)
Theorem init_accepts_any_other_token (st : state) :
  API_TOKEN (config st) <> None ->
  API_TOKEN (config st) <> Some "" ->
  __init__ st = (Ok tt, st).
Proof.
  intros Hnone Hempty. rewrite init_run.
  destruct (is_None _ || eq_empty_str _) eqn:Htest; [|reflexivity].
  apply token_missing_test in Htest as [?|?]; contradiction.
Qed.

Lemma init_accepts_blank_token :
  __init__ Sample.blank_token_state = (Ok tt, Sample.blank_token_state).
Proof.
  apply (init_accepts_any_other_token Sample.blank_token_state); discriminate.
Defined.

(** ** The claims about [send_message] *)

Section SendMessageClaims.

Variable service : list request -> request -> post_outcome.

Lemma send_message_sent (message : string) (kwargs : pydict) (st : state) :
  kwargs !! "body" = None ->
  sent (snd (send_message service message kwargs st)) =
  (sent st ++ [Spec.message_request (config st) message kwargs])%list.
Proof.
  intros Hbody. rewrite send_message_run by exact Hbody. cbv zeta.
  destruct (service (sent st) _) as [r|e]; [|reflexivity].
  destruct (Spec.error_status r); reflexivity.
Qed.

Lemma options_no_body (type_ title_ : option value) :
  Spec.options type_ title_ !! "body" = None.
Proof. destruct type_, title_; reflexivity. Qed.

Lemma options_payload (text : string) (type_ title_ : option value) :
  Spec.payload text (Spec.options type_ title_) =
  {[ "type" := default (VStr "note") type_;
     "title" := default (VStr "Camply Notification") title_;
     "body" := VStr text ]}.
Proof. destruct type_, title_; reflexivity. Qed.

(** C4: with no options the call issues exactly one POST, to the
    configured endpoint, with the base headers plus the access token and
    with the JSON body [{type: note, title: Camply Notification, body:
    text}]; a given [type] or [title] takes the place of its default. *)
Theorem send_message_default_post (text : string) (st : state) :
  sent (snd (send_message service text ∅ st)) =
    (sent st ++
     [{| url := PUSHBULLET_API_ENDPOINT (config st);
         headers := <[ "Access-Token" := token_value (API_TOKEN (config st)) ]>
                      (API_HEADERS (config st));
         json := {[ "type" := VStr "note";
                    "title" := VStr "Camply Notification";
                    "body" := VStr text ]} |}])%list /\
  forall type_ title_ : option value,
    sent (snd (send_message service text (Spec.options type_ title_) st)) =
      (sent st ++
       [{| url := PUSHBULLET_API_ENDPOINT (config st);
           headers := <[ "Access-Token" := token_value (API_TOKEN (config st)) ]>
                        (API_HEADERS (config st));
           json := {[ "type" := default (VStr "note") type_;
                      "title" := default (VStr "Camply Notification") title_;
                      "body" := VStr text ]} |}])%list.
Proof.
  assert (Hgeneral : forall type_ title_ : option value,
    sent (snd (send_message service text (Spec.options type_ title_) st)) =
      (sent st ++
       [{| url := PUSHBULLET_API_ENDPOINT (config st);
           headers := <[ "Access-Token" := token_value (API_TOKEN (config st)) ]>
                        (API_HEADERS (config st));
           json := {[ "type" := default (VStr "note") type_;
                      "title" := default (VStr "Camply Notification") title_;
                      "body" := VStr text ]} |}])%list).
  { intros type_ title_.
    rewrite send_message_sent by apply options_no_body.
    unfold Spec.message_request. by rewrite options_payload. }
  split; [exact (Hgeneral None None) | exact Hgeneral].
Qed.

Lemma call_send_message_bound (message : string) (options : pydict) (st : state) :
  options !! "message" = None ->
  call_send_message service message options st = send_message service message options st.
Proof.
  intros Hmessage. unfold call_send_message, bind_keywords.
  rewrite bool_decide_eq_false_2 by (rewrite Hmessage; by intros [? ?]).
  reflexivity.
Qed.

Lemma call_send_message_collision (message : string) (options : pydict) (st : state) :
  is_Some (options !! "message") ->
  call_send_message service message options st =
  (Raise (TypeError ("PushbulletNotifications.send_message() got multiple values " ++
                     "for argument 'message'")), st).
Proof.
  intros Hmessage. unfold call_send_message, bind_keywords.
  rewrite bool_decide_eq_true_2 by exact Hmessage. reflexivity.
Qed.

(** C5, as the code has it: when no option is named [message] or
    [body], every option other than [type] and [title] is in the payload
    of the one request issued, next to [type], [title] and [body], and
    the payload holds nothing else; an option named [message] collides
    with the parameter and one named [body] with the keyword of the
    payload: either way the call raises a [TypeError] and issues no
    request. *)
Theorem call_send_message_merges_extra_options (message : string)
    (options : pydict) (st : state) :
  match options !! "message", options !! "body" with
  | None, None =>
      exists req,
        sent (snd (call_send_message service message options st)) =
          (sent st ++ [req])%list /\
        json req !! "type" = Some (default (VStr "note") (options !! "type")) /\
        json req !! "title" =
          Some (default (VStr "Camply Notification") (options !! "title")) /\
        json req !! "body" = Some (VStr message) /\
        (forall k v, k <> "type" -> k <> "title" ->
                     options !! k = Some v -> json req !! k = Some v) /\
        (forall k, k <> "type" -> k <> "title" -> k <> "body" ->
                   json req !! k = options !! k)
  | Some _, _ =>
      call_send_message service message options st =
        (Raise (TypeError ("PushbulletNotifications.send_message() got multiple " ++
                           "values for argument 'message'")), st)
  | None, Some _ =>
      fst (call_send_message service message options st) =
        Raise (TypeError "dict() got multiple values for keyword argument 'body'") /\
      sent (snd (call_send_message service message options st)) = sent st
  end.
Proof.
  destruct (options !! "message") as [m|] eqn:Hmessage.
  { apply call_send_message_collision. rewrite Hmessage. eauto. }
  rewrite call_send_message_bound by exact Hmessage.
  destruct (options !! "body") as [v|] eqn:Hbody.
  - rewrite send_message_body_collision by eauto. by split.
  - exists (Spec.message_request (config st) message options).
    split; [by apply send_message_sent|].
    cbn [json Spec.message_request]. unfold Spec.payload.
    split; [by simplify_map_eq|]. split; [by simplify_map_eq|].
    split; [by simplify_map_eq|]. split.
    + intros k v Hty Htl Hk.
      assert (k <> "body") by congruence. by simplify_map_eq.
    + intros k Hty Htl Hb. by simplify_map_eq.
Qed.

(** C2, as the code has it: when the service responds, the call returns
    that response unchanged unless its status is 4xx or 5xx (so for
    every 2xx status, and for 1xx and 3xx too); on a 4xx or 5xx status
    it raises the delivery error ([ConnectionError]) whose message is
    the text of the response and whose cause is the [HTTPError] of that
    response. *)
Theorem send_message_outcome (message : string) (kwargs : pydict) (st : state)
    (r : response) :
  kwargs !! "body" = None ->
  service (sent st) (Spec.message_request (config st) message kwargs) = Responded r ->
  (Spec.success_status r = true ->
   fst (send_message service message kwargs st) = Ok r) /\
  (Spec.error_status r = false ->
   fst (send_message service message kwargs st) = Ok r) /\
  (Spec.error_status r = true ->
   fst (send_message service message kwargs st) =
   Raise (ConnectionError (text r) (HTTPError (http_error_msg r) r))).
Proof.
  intros Hbody Hservice. rewrite send_message_run by exact Hbody. cbv zeta.
  rewrite Hservice.
  assert (Hsuccess : Spec.success_status r = true -> Spec.error_status r = false).
  { unfold Spec.success_status, Spec.error_status. lia. }
  repeat split.
  - intros ->%Hsuccess. reflexivity.
  - intros ->. reflexivity.
  - intros ->. reflexivity.
Qed.

(** C8: a call leaves the configuration as it was, token and base
    headers included: the dict it adds the token to is a new one, and no
    dict that existed before is written to; so a call after it finds the
    same configuration. *)
Theorem send_message_keeps_configuration (message : string) (kwargs : pydict)
    (st : state) :
  config (snd (send_message service message kwargs st)) = config st /\
  locals (snd (send_message service message kwargs st)) =
    (locals st ++ [Spec.access_headers (config st)])%list /\
  forall message' kwargs',
    config (snd (send_message service message' kwargs'
                   (snd (send_message service message kwargs st)))) = config st.
Proof.
  assert (Hone : forall message kwargs st,
    config (snd (send_message service message kwargs st)) = config st /\
    locals (snd (send_message service message kwargs st)) =
      (locals st ++ [Spec.access_headers (config st)])%list).
  { clear. intros message kwargs st.
    destruct (kwargs !! "body") as [v|] eqn:Hbody.
    - rewrite send_message_body_collision by eauto. by split.
    - rewrite send_message_run by exact Hbody. cbv zeta.
      destruct (service (sent st) _) as [r|e]; [|by split].
      destruct (Spec.error_status r); by split. }
  destruct (Hone message kwargs st) as [Hconfig Hlocals].
  repeat split; [exact Hconfig | exact Hlocals |].
  intros message' kwargs'.
  destruct (Hone message' kwargs' (snd (send_message service message kwargs st)))
    as [-> _].
  exact Hconfig.
Qed.

End SendMessageClaims.

(** Writing through the shared reference would change the configuration:
    the copy is what keeps it. *)
Lemma update_through_shared_reference (st : state) (token : value) :
  API_HEADERS (config (snd (dict_update ConfigHeaders {[ "Access-Token" := token ]} st)))
    !! "Access-Token" = Some token.
Proof. cbn. by simplify_map_eq. Qed.

(** ** The claims about [send_campsites] *)

Section SendCampsitesClaims.

Variable service : list request -> request -> post_outcome.

Lemma for_campsites_all_delivered (campsites : list AvailableCampsite) :
  forall st,
    Forall (fun campsite => Spec.well_formed campsite = true) campsites ->
    Spec.all_delivered service (sent st)
      (List.map (Spec.notification (config st)) campsites) = true ->
    fst (for_campsites service campsites st) = Ok tt /\
    sent (snd (for_campsites service campsites st)) =
      (sent st ++ List.map (Spec.notification (config st)) campsites)%list.
Proof.
  induction campsites as [|campsite rest IH]; intros st Hwf Hall.
  - cbn. by rewrite app_nil_r.
  - apply Forall_cons in Hwf as [Hwf Hrest].
    cbn [List.map Spec.all_delivered] in Hall.
    apply andb_true_iff in Hall as [Hfirst Hall].
    rewrite for_campsites_delivered by assumption.
    destruct (IH (posted st (Spec.notification (config st) campsite)) Hrest Hall)
      as [Hok Hsent].
    split; [exact Hok|]. rewrite Hsent. cbn [posted sent config List.map].
    by rewrite <- app_assoc.
Qed.

(** C1, as the code has it: when every record meets the data contract
    and every request of the batch is delivered (a response whose status
    is not 4xx or 5xx), the call returns normally and has issued exactly
    one POST per record, in order; the POST of a record has the title
    "<recreation_area> | <facility_name> | <YYYY-MM-DD>" and a body of
    one "<Label>: <value>" line per field in the record's order, with
    the label and the value the specification gives. *)
Theorem send_campsites_posts_one_per_record (campsites : list AvailableCampsite)
    (kwargs : pydict) (st : state) :
  Forall (fun campsite => Spec.well_formed campsite = true) campsites ->
  Spec.all_delivered service (sent st)
    (List.map (Spec.notification (config st)) campsites) = true ->
  fst (send_campsites service campsites kwargs st) = Ok tt /\
  sent (snd (send_campsites service campsites kwargs st)) =
    (sent st ++ List.map (Spec.notification (config st)) campsites)%list /\
  length (sent (snd (send_campsites service campsites kwargs st))) =
    (length (sent st) + length campsites)%nat /\
  Forall (fun campsite =>
            json (Spec.notification (config st) campsite) !! "title" =
              Some (VStr (format (Spec.field campsite "recreation_area") ++ " | " ++
                          format (Spec.field campsite "facility_name") ++ " | " ++
                          Spec.value_text "booking_date"
                            (Spec.field campsite "booking_date"))) /\
            json (Spec.notification (config st) campsite) !! "body" =
              Some (VStr (Str.join newline (List.map Spec.line (dict campsite)))) /\
            length (List.map Spec.line (dict campsite)) = length (dict campsite) /\
            (dict campsite <> [] ->
             Forall (fun kv => Str.count "010" (Spec.line kv) = O) (dict campsite) ->
             Spec.line_count (Spec.body campsite) = length (dict campsite)))
         campsites.
Proof.
  intros Hwf Hall. unfold send_campsites.
  destruct (for_campsites_all_delivered campsites st Hwf Hall) as [Hok Hsent].
  split; [exact Hok|]. split; [exact Hsent|]. split.
  - rewrite Hsent. rewrite length_app, length_map. reflexivity.
  - apply Forall_forall. intros campsite _.
    split; [reflexivity|]. split; [reflexivity|]. split; [apply length_map|].
    apply body_line_count.
Qed.

(** C6: when the records before record k were delivered and the service
    answers the notification of record k with a 4xx or 5xx status, the
    call raises the delivery error of that response; the requests issued
    are those of the records before k and that of record k, and none for
    a record after k. *)
Theorem send_campsites_aborts_on_first_failure
    (before : list AvailableCampsite) (campsite : AvailableCampsite)
    (after : list AvailableCampsite) (kwargs : pydict) (st : state) (r : response) :
  Forall (fun c => Spec.well_formed c = true) (before ++ [campsite]) ->
  Spec.all_delivered service (sent st)
    (List.map (Spec.notification (config st)) before) = true ->
  service (sent st ++ List.map (Spec.notification (config st)) before)
    (Spec.notification (config st) campsite) = Responded r ->
  Spec.error_status r = true ->
  fst (send_campsites service (before ++ campsite :: after) kwargs st) =
    Raise (ConnectionError (text r) (HTTPError (http_error_msg r) r)) /\
  sent (snd (send_campsites service (before ++ campsite :: after) kwargs st)) =
    (sent st ++ List.map (Spec.notification (config st)) before
             ++ [Spec.notification (config st) campsite])%list.
Proof.
  unfold send_campsites. revert st.
  induction before as [|first before IH]; intros st Hwf Hall Hservice Herror.
  - cbn [app List.map] in *. rewrite app_nil_r in Hservice.
    apply Forall_cons in Hwf as [Hwf _].
    rewrite (for_campsites_rejected service _ _ _ r) by assumption.
    by split.
  - cbn [app List.map Spec.all_delivered] in *.
    apply Forall_cons in Hwf as [Hfirst Hwf].
    apply andb_true_iff in Hall as [Hdelivered Hall].
    rewrite for_campsites_delivered by assumption.
    destruct (IH (posted st (Spec.notification (config st) first))) as [Hraise Hsent].
    + exact Hwf.
    + exact Hall.
    + cbn [posted sent config]. rewrite <- app_assoc. exact Hservice.
    + exact Herror.
    + split; [exact Hraise|]. rewrite Hsent. cbn [posted sent config].
      by rewrite <- app_assoc.
Qed.

(** C7: on the empty batch the call returns normally, raises nothing
    and leaves the state, the list of issued requests included, as it
    was. *)
Theorem send_campsites_empty_batch (kwargs : pydict) (st : state) :
  send_campsites service [] kwargs st = (Ok tt, st) /\
  sent (snd (send_campsites service [] kwargs st)) = sent st.
Proof. split; reflexivity. Qed.

Lemma call_send_campsites_bound (campsites : list AvailableCampsite)
    (options : pydict) (st : state) :
  options !! "campsites" = None ->
  call_send_campsites service campsites options st = for_campsites service campsites st.
Proof.
  intros Hcampsites. unfold call_send_campsites, bind_keywords.
  rewrite bool_decide_eq_false_2 by (rewrite Hcampsites; by intros [? ?]).
  reflexivity.
Qed.

Lemma call_send_campsites_collision (campsites : list AvailableCampsite)
    (options : pydict) (st : state) :
  is_Some (options !! "campsites") ->
  call_send_campsites service campsites options st =
  (Raise (TypeError ("PushbulletNotifications.send_campsites() got multiple values " ++
                     "for argument 'campsites'")), st).
Proof.
  intros Hcampsites. unfold call_send_campsites, bind_keywords.
  rewrite bool_decide_eq_true_2 by exact Hcampsites. reflexivity.
Qed.

(** C9, as the code has it: the call does with any options that hold
    no key [campsites] what it does with none; an option named
    [campsites] collides with the parameter, and the call raises a
    [TypeError] before it looks at a record. Whatever the options, every
    request issued is the notification of one of the first records of
    the batch, whose payload is exactly [{type: note, title: <the
    computed title>, body: <the computed body>}]: no option is in it. *)
Theorem call_send_campsites_ignores_other_options
    (campsites : list AvailableCampsite) (options : pydict) (st : state) :
  match options !! "campsites" with
  | None =>
      call_send_campsites service campsites options st =
      call_send_campsites service campsites ∅ st
  | Some _ =>
      call_send_campsites service campsites options st =
      (Raise (TypeError ("PushbulletNotifications.send_campsites() got multiple " ++
                         "values for argument 'campsites'")), st)
  end /\
  exists notified requests,
    notified `prefix_of` campsites /\
    sent (snd (call_send_campsites service campsites options st)) =
      (sent st ++ requests)%list /\
    Forall2 (fun campsite req =>
               json req = {[ "type" := VStr "note";
                             "title" := VStr (Spec.title campsite);
                             "body" := VStr (Spec.body campsite) ]})
            notified requests.
Proof.
  destruct (options !! "campsites") as [v|] eqn:Hcampsites.
  - rewrite call_send_campsites_collision by (rewrite Hcampsites; eauto).
    split; [reflexivity|]. exists [], []. split; [apply prefix_nil|].
    split; [cbn; by rewrite app_nil_r | constructor].
  - rewrite !call_send_campsites_bound by (exact Hcampsites || reflexivity).
    split; [reflexivity|].
    destruct (for_campsites_prefix service campsites st)
      as [_ (notified & Hprefix & Hsent)].
    exists notified, (List.map (Spec.notification (config st)) notified).
    split; [exact Hprefix|]. split; [exact Hsent|].
    clear. induction notified as [|campsite notified IH]; constructor;
      [reflexivity|exact IH].
Qed.

End SendCampsitesClaims.

(** ** The claims as they were stated, at concrete inputs *)

(** C1 as stated fails when a delivery fails: of a batch of two records
    whose first notification the service answers with status 500, one
    POST is issued, not two. *)
Lemma send_campsites_rejected_batch_posts_once :
  length [Sample.upper_pines; Sample.lower_pines] = 2%nat /\
  length (sent (snd (send_campsites (Sample.always Sample.server_error_500)
                       [Sample.upper_pines; Sample.lower_pines] ∅ Sample.st0))) = 1%nat.
Proof. split; [reflexivity | vm_compute; reflexivity]. Qed.

(** C2 as stated fails on a status that is neither a success nor an
    error for [raise_for_status]: 304 is not a 2xx status, and the call
    returns the response instead of raising. *)
Lemma send_message_returns_not_modified :
  Spec.success_status Sample.not_modified_304 = false /\
  fst (send_message (Sample.always Sample.not_modified_304) "hello" ∅ Sample.st0) =
    Ok Sample.not_modified_304.
Proof. split; [reflexivity | vm_compute; reflexivity]. Qed.

(** C5 as stated fails for the key [body]: the option is in no payload,
    the call raises and nothing is sent. *)
Lemma send_message_rejects_body_option :
  fst (send_message (Sample.always Sample.ok_200) "hello"
         {[ "body" := VStr "other" ]} Sample.st0) =
    Raise (TypeError "dict() got multiple values for keyword argument 'body'") /\
  sent (snd (send_message (Sample.always Sample.ok_200) "hello"
               {[ "body" := VStr "other" ]} Sample.st0)) = [].
Proof. split; vm_compute; reflexivity. Qed.

(** C9 as stated fails for the key [campsites]: with that option the
    call raises and sends nothing, where without options it sends the
    notification of the record. *)
Lemma call_send_campsites_rejects_campsites_option :
  call_send_campsites (Sample.always Sample.ok_200) [Sample.upper_pines]
    {[ "campsites" := VNone ]} Sample.st0 =
    (Raise (TypeError ("PushbulletNotifications.send_campsites() got multiple " ++
                       "values for argument 'campsites'")), Sample.st0) /\
  sent (snd (call_send_campsites (Sample.always Sample.ok_200) [Sample.upper_pines]
               ∅ Sample.st0)) =
    [Spec.notification Sample.cfg Sample.upper_pines].
Proof. split; vm_compute; reflexivity. Qed.

(** ** The theorems at concrete inputs *)

Lemma send_campsites_posts_one_per_record_sample :
  sent (snd (send_campsites (Sample.always Sample.ok_200)
               [Sample.upper_pines; Sample.lower_pines] ∅ Sample.st0)) =
  [Spec.notification Sample.cfg Sample.upper_pines;
   Spec.notification Sample.cfg Sample.lower_pines].
Proof.
  apply (send_campsites_posts_one_per_record (Sample.always Sample.ok_200)
           [Sample.upper_pines; Sample.lower_pines] ∅ Sample.st0).
  - repeat constructor.
  - reflexivity.
Defined.

Lemma send_campsites_aborts_on_first_failure_sample :
  fst (send_campsites (Sample.accepts_first 1)
         [Sample.upper_pines; Sample.lower_pines; Sample.upper_pines] ∅ Sample.st0) =
  Raise (ConnectionError "bad token"
           (HTTPError (http_error_msg Sample.unauthorized_401) Sample.unauthorized_401)).
Proof.
  apply (send_campsites_aborts_on_first_failure (Sample.accepts_first 1)
           [Sample.upper_pines] Sample.lower_pines [Sample.upper_pines] ∅
           Sample.st0 Sample.unauthorized_401).
  - repeat constructor.
  - reflexivity.
  - reflexivity.
  - reflexivity.
Defined.

Lemma send_message_outcome_sample :
  fst (send_message (Sample.always Sample.unauthorized_401) "hello" ∅ Sample.st0) =
  Raise (ConnectionError "bad token"
           (HTTPError (http_error_msg Sample.unauthorized_401) Sample.unauthorized_401)).
Proof.
  apply (send_message_outcome (Sample.always Sample.unauthorized_401)
           "hello" ∅ Sample.st0 Sample.unauthorized_401).
  - reflexivity.
  - reflexivity.
  - reflexivity.
Defined.

(** * Further properties of the code *)

(** ** Logging *)

Section Logging.

Variable service : list request -> request -> post_outcome.

(** X1: a call of [send_message] whose payload can be built logs the
    payload at debug level before posting, and logs the delivery warning
    after it exactly when the response has a 4xx or 5xx status; a call
    stopped by the [body] collision logs nothing. *)
Theorem send_message_logs (message : string) (kwargs : pydict) (st : state) :
  match kwargs !! "body" with
  | None =>
      logs (snd (send_message service message kwargs st)) =
      (logs st ++ LogDebug (Spec.payload message kwargs) ::
         match service (sent st) (Spec.message_request (config st) message kwargs) with
         | Responded r =>
             if Spec.error_status r then [LogWarning delivery_warning] else []
         | PostRaised _ => []
         end)%list
  | Some _ => logs (snd (send_message service message kwargs st)) = logs st
  end.
Proof.
  destruct (kwargs !! "body") as [v|] eqn:Hbody.
  - rewrite send_message_body_collision by eauto. reflexivity.
  - rewrite send_message_run by exact Hbody. cbv zeta.
    destruct (service (sent st) _) as [r|e]; [|reflexivity].
    destruct (Spec.error_status r); cbn [snd warned posted logs json Spec.message_request].
    + by rewrite <- app_assoc.
    + reflexivity.
Qed.

(** X3: an exception raised by [requests.post] itself reaches the
    caller unchanged: it is not turned into a [ConnectionError], the
    call counts as one request, and no delivery warning is logged. *)
Theorem send_message_post_exception (message : string) (kwargs : pydict)
    (st : state) (e : exn) :
  kwargs !! "body" = None ->
  service (sent st) (Spec.message_request (config st) message kwargs) = PostRaised e ->
  fst (send_message service message kwargs st) = Raise e /\
  sent (snd (send_message service message kwargs st)) =
    (sent st ++ [Spec.message_request (config st) message kwargs])%list /\
  logs (snd (send_message service message kwargs st)) =
    (logs st ++ [LogDebug (Spec.payload message kwargs)])%list.
Proof.
  intros Hbody Hservice. rewrite send_message_run by exact Hbody. cbv zeta.
  rewrite Hservice. by repeat split.
Qed.

(** X10: the call of [send_message] returns a response exactly when no
    option is named [message] or [body], the service answered the
    request with that response, and its status is not 4xx or 5xx; it
    never returns a response of its own making nor one with an error
    status. *)
Theorem call_send_message_returns_iff (message : string) (options : pydict)
    (st : state) (r : response) :
  fst (call_send_message service message options st) = Ok r <->
  options !! "message" = None /\
  options !! "body" = None /\
  service (sent st) (Spec.message_request (config st) message options) = Responded r /\
  Spec.error_status r = false.
Proof.
  destruct (options !! "message") as [m|] eqn:Hmessage.
  { rewrite (call_send_message_collision service) by (rewrite Hmessage; eauto).
    cbn [fst]. split; [discriminate | by intros [? _]]. }
  rewrite (call_send_message_bound service) by exact Hmessage.
  destruct (options !! "body") as [v|] eqn:Hbody.
  - rewrite send_message_body_collision by eauto. cbn [fst].
    split; [discriminate | by intros (_ & ? & _)].
  - rewrite send_message_run by exact Hbody. cbv zeta.
    destruct (service (sent st) _) as [r'|e].
    + destruct (Spec.error_status r') eqn:Herror; cbn [fst].
      * split; [discriminate|]. intros (_ & _ & [= ->] & Hr). congruence.
      * split; [intros [= ->]; by repeat split|]. by intros (_ & _ & [= ->] & _).
    + cbn [fst]. split; [discriminate | by intros (_ & _ & ? & _)].
Qed.

(** X8: for options that name neither [message] nor [body], the
    request goes to the configured endpoint, its [Access-Token] header
    is the configured token (an entry of that name in the base headers
    is overridden), and every other header is the base header; options
    named [url] or [headers] end up in the JSON payload only. *)
Theorem call_send_message_endpoint_and_headers (message : string)
    (options : pydict) (st : state) :
  options !! "message" = None ->
  options !! "body" = None ->
  exists req,
    sent (snd (call_send_message service message options st)) = (sent st ++ [req])%list /\
    url req = PUSHBULLET_API_ENDPOINT (config st) /\
    headers req !! "Access-Token" = Some (token_value (API_TOKEN (config st))) /\
    (forall k, k <> "Access-Token" ->
               headers req !! k = API_HEADERS (config st) !! k) /\
    json req !! "url" = options !! "url" /\
    json req !! "headers" = options !! "headers".
Proof.
  intros Hmessage Hbody.
  rewrite (call_send_message_bound service) by exact Hmessage.
  exists (Spec.message_request (config st) message options).
  split; [by apply send_message_sent|].
  cbn [url headers json Spec.message_request].
  unfold Spec.access_headers, Spec.payload.
  split; [reflexivity|]. split; [by simplify_map_eq|].
  split; [intros k Hk; by simplify_map_eq|].
  split; by simplify_map_eq.
Qed.

End Logging.

(** X2: the only exception construction raises is the
    [EnvironmentError] with the warning message, and then the same
    message was logged at error level and nothing else of the state
    changed; when construction returns, the state is untouched. *)
Theorem init_logs_what_it_raises (st : state) :
  (forall e, fst (__init__ st) = Raise e ->
     e = EnvironmentError warning_message /\
     logs (snd (__init__ st)) = (logs st ++ [LogError warning_message])%list /\
     config (snd (__init__ st)) = config st /\
     locals (snd (__init__ st)) = locals st /\
     sent (snd (__init__ st)) = sent st) /\
  (fst (__init__ st) = Ok tt -> snd (__init__ st) = st).
Proof.
  rewrite init_run.
  destruct (is_None _ || eq_empty_str _); cbn [fst snd logs config locals sent]; split.
  - intros e [= <-]. by repeat split.
  - discriminate.
  - discriminate.
  - reflexivity.
Qed.

Lemma send_message_post_exception_offline :
  fst (send_message Faulty.offline "hello" ∅ Sample.st0) =
    Raise (RequestException "connection refused").
Proof.
  apply (send_message_post_exception Faulty.offline "hello" ∅ Sample.st0
           (RequestException "connection refused")); reflexivity.
Defined.

Lemma call_send_message_endpoint_and_headers_sample :
  exists req,
    sent (snd (call_send_message (Sample.always Sample.ok_200) "hello"
                 {[ "url" := VStr "http://elsewhere" ]} Sample.st0)) = [req] /\
    url req = "https://api.pushbullet.com/v2/pushes" /\
    json req !! "url" = Some (VStr "http://elsewhere").
Proof.
  destruct (call_send_message_endpoint_and_headers (Sample.always Sample.ok_200)
              "hello" {[ "url" := VStr "http://elsewhere" ]} Sample.st0)
    as (req & Hsent & Hurl & _ & _ & Hjson & _); [reflexivity|reflexivity|].
  exists req. split; [exact Hsent|]. split; [exact Hurl|]. exact Hjson.
Defined.

(** ** Records that cannot be formatted *)

Lemma format_items_raises (items : list (string * value)) :
  forallb (fun kv => negb (Spec.is_date_key kv.1) || Spec.has_strftime kv.2) items = false ->
  forall fields, format_items items fields = Raise (AttributeError "strftime").
Proof.
  induction items as [|[key v] items IH]; cbn [forallb format_items fst snd];
    [discriminate|]. intros Htyped fields.
  destruct (negb (Spec.is_date_key key) || Spec.has_strftime v) eqn:Hkv.
  - destruct (rename_or_reformat_ok key v Hkv) as [kv ->]. cbn. by apply IH.
  - apply orb_false_iff in Hkv as [Hdate Hvalue].
    apply negb_false_iff in Hdate.
    unfold rename_or_reformat. rewrite date_key_test, Hdate.
    destruct (String.eqb key CampsiteContainerFields.BOOKING_URL) eqn:Hurl.
    { apply url_is_no_date_key in Hurl. congruence. }
    destruct v as [| | | | |? []]; try discriminate Hvalue; reflexivity.
Qed.

Lemma getattr_missing (campsite : AvailableCampsite) (name : string) :
  Spec.has_field campsite name = false ->
  getattr campsite name = Raise (AttributeError name).
Proof.
  unfold Spec.has_field, getattr. intros Hhas.
  destruct (List.find _ (dict campsite)) as [kv|] eqn:Hfind; [|reflexivity].
  apply find_some in Hfind as [Hin Heq].
  assert (Hex : existsb (fun kv => String.eqb kv.1 name) (dict campsite) = true)
    by (apply existsb_exists; eauto).
  congruence.
Qed.

(** X5: what formatting a record raises, case by case: an
    [AttributeError] for [strftime] when a booking date has no
    [strftime] method (it is [None], a [bool], an [int], a [str] or an
    object without one); otherwise an [AttributeError] for the first of
    [recreation_area], [facility_name], [booking_date] that the record
    lacks; otherwise nothing: a date that is no [datetime] but has the
    method is formatted. *)
Theorem formatting_error_cases (campsite : AvailableCampsite) :
  formatting_error campsite =
  if negb (forallb (fun kv => negb (Spec.is_date_key kv.1) || Spec.has_strftime kv.2)
             (dict campsite))
  then Some (AttributeError "strftime")
  else if negb (Spec.has_field campsite "recreation_area")
  then Some (AttributeError "recreation_area")
  else if negb (Spec.has_field campsite "facility_name")
  then Some (AttributeError "facility_name")
  else if negb (Spec.has_field campsite "booking_date")
  then Some (AttributeError "booking_date")
  else None.
Proof.
  unfold formatting_error.
  destruct (forallb _ (dict campsite)) eqn:Htyped; cbn [negb].
  2: { unfold composed_message. rewrite (format_items_raises _ Htyped). reflexivity. }
  destruct (format_items_ok _ Htyped []) as [out Hout].
  unfold composed_message at 1. rewrite Hout. cbn.
  unfold message_title.
  destruct (Spec.has_field campsite "recreation_area") eqn:Hra; cbn [negb].
  2: { rewrite (getattr_missing _ _ Hra). reflexivity. }
  destruct (getattr_ok _ _ Hra) as (kra & _ & _ & ->). cbn.
  destruct (Spec.has_field campsite "facility_name") eqn:Hfn; cbn [negb].
  2: { rewrite (getattr_missing _ _ Hfn). reflexivity. }
  destruct (getattr_ok _ _ Hfn) as (kfn & _ & _ & ->). cbn.
  destruct (Spec.has_field campsite "booking_date") eqn:Hbd; cbn [negb].
  2: { rewrite (getattr_missing _ _ Hbd). reflexivity. }
  destruct (getattr_ok _ _ Hbd) as (kbd & Hin & Hname & ->). cbn.
  rewrite forallb_forall in Htyped. specialize (Htyped _ Hin).
  rewrite Hname in Htyped. cbn in Htyped.
  destruct (kbd.2) as [| | | | |? []]; try discriminate; reflexivity.
Qed.

Lemma formats_iff_formattable (campsite : AvailableCampsite) :
  formatting_error campsite = None <-> Spec.formattable campsite = true.
Proof.
  rewrite formatting_error_cases. unfold Spec.formattable.
  destruct (forallb _ (dict campsite)), (Spec.has_field campsite "recreation_area"),
    (Spec.has_field campsite "facility_name"), (Spec.has_field campsite "booking_date");
    cbn; split; congruence.
Qed.

Section Batches.

Variable service : list request -> request -> post_outcome.

Lemma for_campsites_unformattable (campsite : AvailableCampsite)
    (rest : list AvailableCampsite) (st : state) (e : exn) :
  formatting_error campsite = Some e ->
  for_campsites service (campsite :: rest) st = (Raise e, st).
Proof.
  unfold formatting_error. intros Herror. rewrite for_campsites_cons.
  destruct (composed_message campsite); [|congruence].
  destruct (message_title campsite); [discriminate | congruence].
Qed.

(** X4: a record that cannot be formatted stops the batch with the
    exception of the formatting, before any request for it: when the
    records before it were delivered, the requests issued are theirs and
    no more, and no record after it is looked at. *)
Theorem send_campsites_stops_on_unformattable_record
    (before : list AvailableCampsite) (campsite : AvailableCampsite)
    (after : list AvailableCampsite) (kwargs : pydict) (st : state) (e : exn) :
  Forall (fun c => Spec.well_formed c = true) before ->
  Spec.all_delivered service (sent st)
    (List.map (Spec.notification (config st)) before) = true ->
  formatting_error campsite = Some e ->
  fst (send_campsites service (before ++ campsite :: after) kwargs st) = Raise e /\
  sent (snd (send_campsites service (before ++ campsite :: after) kwargs st)) =
    (sent st ++ List.map (Spec.notification (config st)) before)%list.
Proof.
  unfold send_campsites. revert st.
  induction before as [|first before IH]; intros st Hwf Hall Herror.
  - cbn [app List.map]. rewrite (for_campsites_unformattable _ _ _ e Herror).
    cbn. by rewrite app_nil_r.
  - cbn [app List.map Spec.all_delivered] in *.
    apply Forall_cons in Hwf as [Hfirst Hwf].
    apply andb_true_iff in Hall as [Hdelivered Hall].
    rewrite for_campsites_delivered by assumption.
    destruct (IH (posted st (Spec.notification (config st) first)) Hwf Hall Herror)
      as [Hraise Hsent].
    split; [exact Hraise|]. rewrite Hsent. cbn [posted sent config].
    by rewrite <- app_assoc.
Qed.

Lemma for_campsites_returns_iff (campsites : list AvailableCampsite) :
  forall st,
    fst (for_campsites service campsites st) = Ok tt <->
    Forall (fun c => Spec.formattable c = true) campsites /\
    Spec.all_delivered service (sent st)
      (List.map (Spec.notification (config st)) campsites) = true.
Proof.
  induction campsites as [|campsite rest IH]; intros st.
  - by split.
  - rewrite for_campsites_cons. cbn [List.map Spec.all_delivered].
    rewrite Forall_cons, andb_true_iff.
    destruct (Spec.formattable campsite) eqn:Hformattable.
    + destruct (formattable_formats _ Hformattable) as [-> ->]. cbv zeta.
      destruct (service (sent st) _) as [r|e]; cbn [Spec.delivered fst].
      * destruct (Spec.error_status r); cbn [negb fst].
        -- split; [discriminate | by intros (_ & ? & _)].
        -- rewrite IH. cbn [posted sent config]. tauto.
      * split; [discriminate | by intros (_ & ? & _)].
    + assert (Herror : formatting_error campsite <> None).
      { rewrite formats_iff_formattable. congruence. }
      unfold formatting_error in Herror.
      destruct (composed_message campsite).
      * destruct (message_title campsite); [congruence|].
        cbn [fst]. split; [discriminate | by intros ([? _] & _)].
      * cbn [fst]. split; [discriminate | by intros ([? _] & _)].
Qed.

(** X7: the call of [send_campsites] returns normally exactly when no
    option is named [campsites], every record of the batch has the three
    fields of the title and booking dates with a [strftime] method, and
    every one of the requests is delivered; so a normal return means
    that all the records were notified. *)
Theorem call_send_campsites_returns_iff (campsites : list AvailableCampsite)
    (options : pydict) (st : state) :
  fst (call_send_campsites service campsites options st) = Ok tt <->
  options !! "campsites" = None /\
  Forall (fun c => Spec.formattable c = true) campsites /\
  Spec.all_delivered service (sent st)
    (List.map (Spec.notification (config st)) campsites) = true.
Proof.
  destruct (options !! "campsites") as [v|] eqn:Hcampsites.
  - rewrite call_send_campsites_collision by (rewrite Hcampsites; eauto).
    cbn [fst]. split; [discriminate | by intros [? _]].
  - rewrite call_send_campsites_bound by exact Hcampsites.
    rewrite for_campsites_returns_iff. tauto.
Qed.

(** X6: sending a batch is sending its parts one after the other: the
    call on [first ++ second] does what the call on [first] followed,
    when that one returns, by the call on [second] does. *)
Theorem send_campsites_app (first second : list AvailableCampsite)
    (kwargs : pydict) (st : state) :
  send_campsites service (first ++ second) kwargs st =
  (send_campsites service first kwargs ;; send_campsites service second kwargs) st.
Proof.
  unfold send_campsites. revert st.
  induction first as [|campsite first IH]; intros st; [reflexivity|].
  cbn [app]. rewrite bind_run, !for_campsites_cons.
  destruct (composed_message campsite); [|reflexivity].
  destruct (message_title campsite); [|reflexivity].
  cbv zeta. destruct (service (sent st) _) as [r|e]; [|reflexivity].
  destruct (Spec.error_status r); [reflexivity|].
  rewrite IH. apply bind_run.
Qed.

(** X11: a batch call leaves the configuration as it was, and copies
    the base headers once for each request it issues: the dicts it
    creates are as many as the requests, each the base headers plus the
    token. *)
Theorem send_campsites_keeps_configuration (campsites : list AvailableCampsite)
    (kwargs : pydict) (st : state) :
  config (snd (send_campsites service campsites kwargs st)) = config st /\
  exists n,
    locals (snd (send_campsites service campsites kwargs st)) =
      (locals st ++ replicate n (Spec.access_headers (config st)))%list /\
    length (sent (snd (send_campsites service campsites kwargs st))) =
      (length (sent st) + n)%nat.
Proof.
  unfold send_campsites. split; [apply for_campsites_prefix|]. revert st.
  induction campsites as [|campsite rest IH]; intros st.
  - exists 0%nat. cbn. by rewrite app_nil_r, Nat.add_0_r.
  - rewrite for_campsites_cons.
    assert (Hnone : exists n,
              locals st = (locals st ++ replicate n (Spec.access_headers (config st)))%list /\
              length (sent st) = (length (sent st) + n)%nat).
    { exists 0%nat. cbn. by rewrite app_nil_r, Nat.add_0_r. }
    assert (Hone : forall req, exists n,
              (locals st ++ [Spec.access_headers (config st)])%list =
                (locals st ++ replicate n (Spec.access_headers (config st)))%list /\
              length (sent st ++ [req]) = (length (sent st) + n)%nat).
    { intros req. exists 1%nat. split; [reflexivity|]. by rewrite length_app. }
    destruct (composed_message campsite); [|exact Hnone].
    destruct (message_title campsite); [|exact Hnone].
    cbv zeta. destruct (service (sent st) _) as [r|e]; [|apply Hone].
    destruct (Spec.error_status r); [apply Hone|].
    destruct (IH (posted st (Spec.notification (config st) campsite)))
      as (n & Hlocals & Hsent).
    exists (S n). rewrite Hlocals, Hsent. cbn [posted locals sent config].
    split.
    + rewrite <- app_assoc. reflexivity.
    + rewrite length_app. cbn. lia.
Qed.

End Batches.

(** ** The further theorems at concrete inputs *)

Lemma send_campsites_stops_on_unformattable_record_sample :
  fst (send_campsites (Sample.always Sample.ok_200)
         [Sample.upper_pines; Faulty.no_facility; Sample.lower_pines] ∅ Sample.st0) =
    Raise (AttributeError "facility_name") /\
  sent (snd (send_campsites (Sample.always Sample.ok_200)
         [Sample.upper_pines; Faulty.no_facility; Sample.lower_pines] ∅ Sample.st0)) =
    [Spec.notification Sample.cfg Sample.upper_pines].
Proof.
  apply (send_campsites_stops_on_unformattable_record (Sample.always Sample.ok_200)
           [Sample.upper_pines] Faulty.no_facility [Sample.lower_pines] ∅
           Sample.st0 (AttributeError "facility_name")).
  - repeat constructor.
  - reflexivity.
  - reflexivity.
Defined.

Lemma text_end_date_is_no_datetime :
  formatting_error Faulty.text_end_date = Some (AttributeError "strftime").
Proof. reflexivity. Qed.

(** A [datetime.date] start date is formatted through its own
    [strftime]. *)
Lemma plain_date_is_formatted :
  formatting_error Faulty.plain_date = None /\
  message_title Faulty.plain_date = Ok "Yosemite | Upper Pines | 2023-06-01".
Proof. split; reflexivity. Qed.
